(** * InspectHTTPDomain: the on-demand static-file server registry

    A shallow embedding of [node/InspectHTTPDomain.js]: the table from
    root-path keys to running servers, the two commands [getServer] and
    [closeServer], the external-address enumeration and the subnet filter
    installed in front of every server.

    Modelling conventions.
    - JavaScript strings are [string]; the only characters the code inspects
      are the ASCII ["/"] and ["."].
    - [obj[i]] on an array or a string is an [option]: [None] is JavaScript's
      [undefined], and [===] on such reads is equality of options.
    - The module-level object [_servers] is a [gmap string entry] of own
      properties; reads go through [js_get], which also sees the properties
      every plain object inherits from [Object.prototype].
    - What the operating system and the network decide (the interface list,
      the port handed out by [listen(0)], whether the warm-up GET gets an
      answer) is read from an explicit [env] record.
    - A command runs from its call to the invocation of its completion
      callback as one step on the [world]; the callback's argument list is
      the command's result. A command that an exception leaves has no
      callback: its result is the exception. *)

From stdpp Require Import base strings list gmap.
From Stdlib Require Import ZArith Ascii String Lia.

Local Open Scope string_scope.
Local Open Scope list_scope.

#[local] Set Warnings "-register-all".

(** ** JavaScript values that cross the command boundary *)

Inductive jsval : Type :=
| JUndefined
| JNull
| JBool (b : bool)
| JNum (n : Z)
| JStr (s : string)
| JObj (fields : list (string * jsval)).

(** [ToBoolean] on the values above. *)
Definition truthy (v : jsval) : bool :=
  match v with
  | JUndefined | JNull => false
  | JBool b => b
  | JNum n => negb (n =? 0)%Z
  | JStr s => negb (String.eqb s "")
  | JObj _ => true
  end.

(** Property read [o.name] on an object literal; [JUndefined] when the
    property is absent or the receiver is not an object. *)
Fixpoint assoc_get (name : string) (fields : list (string * jsval)) : jsval :=
  match fields with
  | [] => JUndefined
  | (k, v) :: rest => if String.eqb k name then v else assoc_get name rest
  end.

Definition get_field (name : string) (v : jsval) : jsval :=
  match v with
  | JObj fields => assoc_get name fields
  | _ => JUndefined
  end.

(** ** String primitives used by the source *)

Module JsString.

(** [s[s.length - 1]] *)
Fixpoint last_char (s : string) : option ascii :=
  match s with
  | EmptyString => None
  | String c EmptyString => Some c
  | String _ rest => last_char rest
  end.

(** [s.slice(0, -1)] *)
Fixpoint slice_0_m1 (s : string) : string :=
  match s with
  | EmptyString => EmptyString
  | String _ EmptyString => EmptyString
  | String c rest => String c (slice_0_m1 rest)
  end.

(** [s.split(sep)] for a one-character separator: always at least one
    component, empty components kept. *)
Fixpoint split (sep : ascii) (s : string) : list string :=
  match s with
  | EmptyString => [EmptyString]
  | String c rest =>
      if Ascii.eqb c sep then EmptyString :: split sep rest
      else match split sep rest with
           | [] => [String c EmptyString]
           | h :: t => String c h :: t
           end
  end.

End JsString.

(** ** Registry keys *)

Definition PATH_KEY_PREFIX : string := "edge-code-inspect-".

Definition slash : ascii := "/"%char.
Definition dot : ascii := "."%char.

(** [(path && path[path.length - 1] === "/") ? path.slice(0, -1) : path] *)
Definition normalizeRootPath (path : string) : string :=
  if truthy (JStr path) && bool_decide (JsString.last_char path = Some slash)
  then JsString.slice_0_m1 path
  else path.

Definition getPathKey (path : string) : string :=
  PATH_KEY_PREFIX ++ normalizeRootPath path.

(** The property names a plain object inherits from [Object.prototype]
    (the JavaScript runtime, not this repository, fixes this list). *)
Definition object_prototype_names : list string :=
  [ "constructor"; "__proto__"; "hasOwnProperty"; "isPrototypeOf";
    "propertyIsEnumerable"; "toLocaleString"; "toString"; "valueOf";
    "__defineGetter__"; "__defineSetter__"; "__lookupGetter__";
    "__lookupSetter__" ].

(** ** Network interfaces and the external addresses *)

(** One element of an array in [os.networkInterfaces()]. *)
Record ifaddr : Type := {
  addr_address : string;
  addr_family : string;
  addr_internal : bool
}.

(** [os.networkInterfaces()]: interface names, in [Object.keys] order, each
    with its array of addresses. *)
Definition interfaces : Type := list (string * list ifaddr).

(** [addr.split(".")[i]] *)
Definition octet (i : nat) (addr : string) : option string :=
  JsString.split dot addr !! i.

(** [a !== b] on array reads. *)
Definition strict_ne (a b : option string) : bool := negb (bool_decide (a = b)).

(** [a === b] on array reads. *)
Definition strict_eq (a b : option string) : bool := bool_decide (a = b).

(** The body of the inner [forEach] callback: the guard and the [push]. *)
Definition visit_address (addresses : list string) (addr : ifaddr) : list string :=
  if String.eqb (addr_family addr) "IPv4" && negb (addr_internal addr) then
    if strict_ne (octet 0 (addr_address addr)) (Some "169")
       && strict_ne (octet 1 (addr_address addr)) (Some "254")
    then addresses ++ [addr_address addr]
    else addresses
  else addresses.

Definition getExternalAddresses (ifs : interfaces) : list string :=
  fold_left
    (fun addresses k => fold_left visit_address (snd k) addresses)
    ifs [].

(** The range 169.254.0.0/16, read off the dotted form. *)
Definition link_local (address : string) : bool :=
  strict_eq (octet 0 address) (Some "169")
  && strict_eq (octet 1 address) (Some "254").

(** ** The subnet filter *)

(** The part of the incoming request the filter reads:
    [request.connection.remoteAddress], [None] when undefined. *)
Record request : Type := { remoteAddress : option string }.

(** The part of the response the filter writes: the status code and, once
    [end] has been called, the body it was called with. *)
Record response : Type := {
  statusCode : Z;
  ended : option string
}.

(** What one middleware invocation did: the response as it left it, whether
    it called [next()], and the lines it logged. *)
Record handled : Type := {
  h_response : response;
  h_next : bool;
  h_log : list string
}.

(** String concatenation with a possibly undefined right operand. *)
Definition concat_undefined (s : string) (o : option string) : string :=
  s ++ match o with Some t => t | None => "undefined" end.

Definition rejectOffSubnetRequests (serverAddress : string)
    (req : request) (res : response) : handled :=
  let clientAddress := remoteAddress req in
  let reject :=
    {| h_response := {| statusCode := 403; ended := Some "Forbidden" |};
       h_next := false;
       h_log := [concat_undefined "Rejecting off-subnet request from address: "
                                  clientAddress] |} in
  match clientAddress with
  | Some c =>
      if truthy (JStr c) then
        if strict_eq (octet 0 c) (octet 0 serverAddress)
           && strict_eq (octet 1 c) (octet 1 serverAddress)
           && strict_eq (octet 2 c) (octet 2 serverAddress)
        then {| h_response := res; h_next := true; h_log := [] |}
        else reject
      else reject
  | None => reject
  end.

(** ** Servers, the registry and the world *)

(** The middleware a [connect] application can hold here. *)
Inductive middleware : Type :=
| MwRejectOffSubnet (serverAddress : string)
| MwStatic (root : string)
| MwLimit (size : string).

(** [connect()] and [app.use(mw)]: the stack runs in the order of the
    [use] calls. *)
Definition connect : list middleware := [].
Definition use (mw : middleware) (app : list middleware) : list middleware :=
  app ++ [mw].

(** [connect["static"](root)]: the library (connect, not this repository)
    refuses a falsy root with an exception, and otherwise returns the
    middleware that serves the files under [root]. *)
Definition static_root_required : string := "static() root path required".

Definition connect_static (root : string) : string + middleware :=
  if truthy (JStr root) then inr (MwStatic root)
  else inl static_root_required.

(** The result of [http.createServer(app)]; [srv_id] tells the server
    objects apart. *)
Record httpServer : Type := {
  srv_id : nat;
  srv_app : list middleware
}.

(** The object literal [{server: server, address: address}]. *)
Record entry : Type := {
  server : option httpServer;
  address : jsval
}.

Inductive event : Type :=
| EvListen (id : nat) (port : Z)
| EvGetRoot (host : string) (port : Z)
| EvDelete (key : string)
| EvClose (id : nat).

Record world : Type := {
  _servers : gmap string entry;
  listening : gmap nat Z;
  next_server : nat;
  trace : list event
}.

Definition initial_world : world :=
  {| _servers := ∅; listening := ∅; next_server := 0; trace := [] |}.

(** What the surroundings decide during one [getServer] call. *)
Record env : Type := {
  networkInterfaces : interfaces;
  listen_port : Z;
  get_error : option string
}.

(** How a command ends: its callback is invoked with [args], or an
    exception leaves the handler. *)
Inductive completion : Type :=
| Callback (args : list jsval)
| Throws (what : string).

(** A read [o[k]] on the plain object [_servers]. *)
Inductive slot : Type :=
| Own (en : entry)
| Inherited
| Absent.

Definition js_get (o : gmap string entry) (k : string) : slot :=
  match o !! k with
  | Some en => Own en
  | None =>
      if bool_decide (k ∈ object_prototype_names) then Inherited else Absent
  end.

(** ** Creating a server *)

(** [http.createServer(app)]: a new server object, not yet listening. *)
Definition http_createServer (app : list middleware) (w : world)
    : httpServer * world :=
  ({| srv_id := next_server w; srv_app := app |},
   {| _servers := _servers w;
      listening := listening w;
      next_server := S (next_server w);
      trace := trace w |}).

(** [server.listen(0, ...)]: the system picks the port, and the listener
    stays open until [close] is called on the server. *)
Definition listen (srv : httpServer) (port : Z) (w : world) : world :=
  {| _servers := _servers w;
     listening := <[srv_id srv := port]> (listening w);
     next_server := next_server w;
     trace := trace w ++ [EvListen (srv_id srv) port] |}.

(** [requestRoot]: the warm-up GET; only the attempt is recorded, its
    outcome is [get_error] of the environment. *)
Definition requestRoot (host : string) (port : Z) (w : world) : world :=
  {| _servers := _servers w;
     listening := listening w;
     next_server := next_server w;
     trace := trace w ++ [EvGetRoot host port] |}.

(** [srv.close(...)]: the listener stops accepting. *)
Definition close (srv : httpServer) (w : world) : world :=
  {| _servers := _servers w;
     listening := delete (srv_id srv) (listening w);
     next_server := next_server w;
     trace := trace w ++ [EvClose (srv_id srv)] |}.

(** The three arguments handed to [createCompleteCallback]. *)
Record created : Type := {
  c_err : jsval;
  c_server : option httpServer;
  c_address : jsval
}.

(** How [_createServer] ends: [createCompleteCallback] is called, or an
    exception leaves the function before the callback was ever called. *)
Inductive creation : Type :=
| Created (c : created)
| CreateThrows (what : string).

Definition _createServer (path : string) (e : env) (w : world)
    : creation * world :=
  let externalAddresses := getExternalAddresses (networkInterfaces e) in
  match externalAddresses with
  | [] =>
      (Created {| c_err := JStr "Could not find an external IP address";
                  c_server := None; c_address := JNull |}, w)
  | host :: _ =>
      let app := connect in
      let app := use (MwRejectOffSubnet host) app in
      match connect_static path with
      | inl what => (CreateThrows what, w)
      | inr static =>
          let app := use static app in
          let app := use (MwLimit "1mb") app in
          let (srv, w) := http_createServer app w in
          let port := listen_port e in
          let w := listen srv port w in
          let w := requestRoot host port w in
          match get_error e with
          | Some _ =>
              (Created
                 {| c_err := JStr "Could not GET root after launching server";
                    c_server := None; c_address := JNull |}, w)
          | None =>
              (Created
                 {| c_err := JNull;
                    c_server := Some srv;
                    c_address :=
                      JObj [("address", JStr host); ("port", JNum port)] |},
               w)
          end
      end
  end.

(** ** The two commands *)

Definition set_servers (m : gmap string entry) (w : world) : world :=
  {| _servers := m;
     listening := listening w;
     next_server := next_server w;
     trace := trace w |}.

Definition _cmdGetServer (path : string) (e : env) (w : world)
    : completion * world :=
  let pathKey := getPathKey path in
  match js_get (_servers w) pathKey with
  | Own en => (Callback [JNull; address en], w)
  | Inherited => (Callback [JNull; JUndefined], w)
  | Absent =>
      match _createServer path e w with
      | (Created c, w) =>
          if truthy (c_err c) then (Callback [c_err c; JNull], w)
          else
            (Callback [JNull; c_address c],
             set_servers
               (<[pathKey := {| server := c_server c; address := c_address c |}]>
                  (_servers w)) w)
      | (CreateThrows what, w) => (Throws what, w)
      end
  end.

(** [delete _servers[pathKey]], recorded in the trace. *)
Definition delete_server (pathKey : string) (w : world) : world :=
  {| _servers := delete pathKey (_servers w);
     listening := listening w;
     next_server := next_server w;
     trace := trace w ++ [EvDelete pathKey] |}.

Definition _cmdCloseServer (path : string) (w : world) : completion * world :=
  let pathKey := getPathKey path in
  match js_get (_servers w) pathKey with
  | Own en =>
      let serverToClose := server en in
      let w := delete_server pathKey w in
      match serverToClose with
      | Some srv => (Callback [JNull; JStr path], close srv w)
      | None => (Throws "TypeError", w)
      end
  | Inherited => (Throws "TypeError", delete_server pathKey w)
  | Absent => (Callback [JStr path], w)
  end.

(** The worlds the two commands can produce from the empty table. *)
Inductive reachable : world → Prop :=
| reach_init : reachable initial_world
| reach_get path e w :
    reachable w → reachable (snd (_cmdGetServer path e w))
| reach_close path w :
    reachable w → reachable (snd (_cmdCloseServer path w)).

(** The error-first reading of a completion by the command layer. *)
Definition cb_error (c : completion) : jsval :=
  match c with
  | Callback (err :: _) => err
  | _ => JUndefined
  end.

Definition cb_result (c : completion) : jsval :=
  match c with
  | Callback (_ :: r :: _) => r
  | _ => JUndefined
  end.

(** ** Notions the properties are stated with *)

(** The guard of [visit_address] as one boolean. *)
Definition pushed (addr : ifaddr) : bool :=
  String.eqb (addr_family addr) "IPv4" && negb (addr_internal addr)
  && strict_ne (octet 0 (addr_address addr)) (Some "169")
  && strict_ne (octet 1 (addr_address addr)) (Some "254").

(** The listener of server [id] has been released. *)
Definition released (id : nat) (w : world) : Prop :=
  listening w !! id = None.

(** [a] is installed before [b] in a stack. *)
Definition installed_before (a b : middleware) (app : list middleware) : Prop :=
  ∃ i j, app !! i = Some a ∧ app !! j = Some b ∧ i < j.

(** The server a creation handed to its callback, if it handed one. *)
Definition handed_server (o : creation) : option httpServer :=
  match o with
  | Created c => c_server c
  | CreateThrows _ => None
  end.

(** The error a creation handed to its callback; [JUndefined] when the
    callback was never called. *)
Definition handed_error (o : creation) : jsval :=
  match o with
  | Created c => c_err c
  | CreateThrows _ => JUndefined
  end.

(** The stack of the server a creation handed out, empty when it handed
    out none. *)
Definition created_app (o : creation) : list middleware :=
  match handed_server o with
  | Some srv => srv_app srv
  | None => []
  end.

(** Every stored address is the two-field literal of [_createServer]. *)
Definition addresses_two_fields (w : world) : Prop :=
  ∀ k en, _servers w !! k = Some en →
    ∃ host port, address en = JObj [("address", JStr host); ("port", JNum port)].

(** Sample surroundings, used to run the commands on concrete input: one usable interface; the warm-up GET answers in
    [env_ok] and fails in [env_refused]; [env_offline] has the loopback
    interface only. *)
Definition lan_interfaces : interfaces :=
  [("lo", [ {| addr_address := "127.0.0.1"; addr_family := "IPv4";
               addr_internal := true |} ]);
   ("en0", [ {| addr_address := "fe80::1"; addr_family := "IPv6";
                addr_internal := false |};
             {| addr_address := "10.0.1.5"; addr_family := "IPv4";
                addr_internal := false |} ])].

Definition env_ok : env :=
  {| networkInterfaces := lan_interfaces; listen_port := 49152;
     get_error := None |}.

Definition env_refused : env :=
  {| networkInterfaces := lan_interfaces; listen_port := 49153;
     get_error := Some "ECONNREFUSED" |}.

Definition env_offline : env :=
  {| networkInterfaces :=
       [("lo", [ {| addr_address := "127.0.0.1"; addr_family := "IPv4";
                    addr_internal := true |} ])];
     listen_port := 49154;
     get_error := None |}.

(** The object literal [{address: host, port: port}]. *)
Definition address_object (host : string) (port : Z) : jsval :=
  JObj [("address", JStr host); ("port", JNum port)].

(** The stack [_createServer] builds for [host] and [root]. *)
Definition pipeline (host root : string) : list middleware :=
  use (MwLimit "1mb") (use (MwStatic root) (use (MwRejectOffSubnet host) connect)).

(** The world after a server was created for [host], started on the port
    of [e] and probed. *)
Definition started (host root : string) (e : env) (w : world) : world :=
  requestRoot host (listen_port e)
    (listen (fst (http_createServer (pipeline host root) w)) (listen_port e)
       (snd (http_createServer (pipeline host root) w))).

(** An entry as the commands leave it under key [k] in world [w]: it holds
    a server whose filter is bound to the address it reports, whose files
    are rooted at a path with key [k], and which listens on the port it
    reports. *)
Definition entry_live (w : world) (k : string) (en : entry) : Prop :=
  ∃ srv host port root,
    server en = Some srv
    ∧ address en = address_object host port
    ∧ srv_app srv = [MwRejectOffSubnet host; MwStatic root; MwLimit "1mb"]
    ∧ getPathKey root = k
    ∧ listening w !! srv_id srv = Some port.

(** The invariant of the table: every entry is live, no server is stored
    under two keys, and every listening server was numbered before the next
    one to be created. *)
Definition registry_ok (w : world) : Prop :=
  (∀ k en, _servers w !! k = Some en → entry_live w k en)
  ∧ (∀ k1 k2 en1 en2 s1 s2,
       _servers w !! k1 = Some en1 → _servers w !! k2 = Some en2 →
       server en1 = Some s1 → server en2 = Some s2 →
       srv_id s1 = srv_id s2 → k1 = k2)
  ∧ (∀ id port, listening w !! id = Some port → id < next_server w).

(** The two error strings of [_createServer]. *)
Definition no_address_error : string := "Could not find an external IP address".
Definition warmup_error : string := "Could not GET root after launching server".

(** * Properties *)

(** ** Strings *)

Module JsStringFacts.
Import JsString.

Lemma last_char_snoc (s : string) (c : ascii) :
  last_char (s ++ String c EmptyString) = Some c.
Proof.
  induction s as [|a s IH]; [reflexivity|].
  destruct s as [|b s]; [reflexivity|].
  change (last_char (String b s ++ String c EmptyString) = Some c).
  exact IH.
Qed.

Lemma slice_0_m1_snoc (s : string) (c : ascii) :
  slice_0_m1 (s ++ String c EmptyString) = s.
Proof.
  induction s as [|a s IH]; [reflexivity|].
  destruct s as [|b s]; [reflexivity|].
  change (String a (slice_0_m1 (String b s ++ String c EmptyString))
          = String a (String b s)).
  rewrite IH. reflexivity.
Qed.

Lemma snoc_nonempty (s : string) (c : ascii) :
  String.eqb (s ++ String c EmptyString) "" = false.
Proof. destruct s; reflexivity. Qed.

Lemma split_nonempty (sep : ascii) (s : string) : split sep s ≠ [].
Proof.
  destruct s as [|c s]; cbn [split]; [discriminate|].
  destruct (Ascii.eqb c sep); [discriminate|].
  destruct (split sep s); discriminate.
Qed.

End JsStringFacts.

(** ** Keys *)

Lemma normalizeRootPath_trailing (p : string) :
  normalizeRootPath (p +:+ "/") = p.
Proof.
  unfold normalizeRootPath, truthy.
  rewrite JsStringFacts.snoc_nonempty, (JsStringFacts.last_char_snoc p "/"%char).
  rewrite bool_decide_eq_true_2 by reflexivity.
  apply JsStringFacts.slice_0_m1_snoc.
Qed.

Lemma normalizeRootPath_plain (p : string) :
  JsString.last_char p ≠ Some slash → normalizeRootPath p = p.
Proof.
  intros H. unfold normalizeRootPath.
  rewrite (bool_decide_eq_false_2 _ H), andb_false_r. reflexivity.
Qed.

Lemma getPathKey_head (p : string) :
  ∃ rest, getPathKey p = String "e"%char rest.
Proof. eexists. reflexivity. Qed.

Lemma getPathKey_not_inherited (p : string) :
  getPathKey p ∉ object_prototype_names.
Proof.
  destruct (getPathKey_head p) as [rest ->].
  unfold object_prototype_names.
  rewrite !elem_of_cons, elem_of_nil.
  intros H. repeat (destruct H as [H|H]; [discriminate H|]). exact H.
Qed.

(** A read of [_servers] at a path key never lands on an inherited
    property: it is the own-property lookup. *)
Lemma js_get_getPathKey (o : gmap string entry) (p : string) :
  js_get o (getPathKey p) =
  match o !! getPathKey p with Some en => Own en | None => Absent end.
Proof.
  unfold js_get. destruct (o !! getPathKey p); [reflexivity|].
  rewrite bool_decide_eq_false_2; [reflexivity|apply getPathKey_not_inherited].
Qed.

(** C10 (confirmed): the key is the fixed prefix followed by the normalized
    path; two paths get the same key exactly when their normalized forms are
    equal; and no key is the name of a property inherited from
    [Object.prototype], so a read of the table at a key sees own entries
    only. *)
Theorem getPathKey_prefix_injective (p q : string) (o : gmap string entry) :
  getPathKey p = "edge-code-inspect-" +:+ normalizeRootPath p
  ∧ (getPathKey p = getPathKey q ↔ normalizeRootPath p = normalizeRootPath q)
  ∧ (getPathKey p ∉ object_prototype_names)
  ∧ (js_get o (getPathKey p) ≠ Inherited).
Proof.
  split; [reflexivity|]. split; [|split].
  - unfold getPathKey. split; [|congruence].
    intros H. exact (String.app_inj PATH_KEY_PREFIX _ _ H).
  - apply getPathKey_not_inherited.
  - rewrite js_get_getPathKey. destruct (o !! getPathKey p); discriminate.
Qed.

(** C7, as stated, fails: ["/a//"] and ["/a/"] differ only by one trailing
    separator and get different keys, because exactly one separator is
    stripped from each. *)
Lemma trailing_separator_counterexample :
  "/a//" = "/a/" +:+ "/" ∧ getPathKey "/a//" ≠ getPathKey "/a/".
Proof. split; [reflexivity|]. vm_compute. discriminate. Qed.

(** C7 (amended): when [p] does not itself end in a separator, [p] and
    [p +:+ "/"] have the same key, so both commands read the same slot of
    the table for the two spellings. *)
Theorem trailing_separator_same_key (p : string) (o : gmap string entry) :
  JsString.last_char p ≠ Some slash →
  getPathKey (p +:+ "/") = getPathKey p
  ∧ js_get o (getPathKey (p +:+ "/")) = js_get o (getPathKey p).
Proof.
  intros H.
  assert (getPathKey (p +:+ "/") = getPathKey p) as E.
  { unfold getPathKey.
    rewrite normalizeRootPath_trailing, normalizeRootPath_plain by exact H.
    reflexivity. }
  rewrite E. split; reflexivity.
Qed.

Lemma trailing_separator_same_key_witness :
  getPathKey ("/a/b" +:+ "/") = getPathKey "/a/b"
  ∧ js_get ∅ (getPathKey ("/a/b" +:+ "/")) = js_get ∅ (getPathKey "/a/b").
Proof.
  apply (trailing_separator_same_key "/a/b" ∅). vm_compute. discriminate.
Defined.

(** ** The external addresses *)

Lemma visit_address_pushed (addresses : list string) (addr : ifaddr) :
  visit_address addresses addr =
  if pushed addr then addresses ++ [addr_address addr] else addresses.
Proof.
  unfold visit_address, pushed.
  destruct (String.eqb _ _), (addr_internal addr); cbn [andb negb];
    try reflexivity.
Qed.

Lemma fold_visit_address (addrs : list ifaddr) (acc : list string) :
  fold_left visit_address addrs acc
  = acc ++ map addr_address (filter (λ a, pushed a = true) addrs).
Proof.
  revert acc. induction addrs as [|a addrs IH]; intros acc; cbn [fold_left].
  - cbn. by rewrite app_nil_r.
  - rewrite IH, visit_address_pushed, filter_cons.
    destruct (pushed a) eqn:E.
    + rewrite decide_True by reflexivity. cbn [map]. by rewrite <- app_assoc.
    + rewrite decide_False by discriminate. reflexivity.
Qed.

Lemma getExternalAddresses_flat (ifs : interfaces) :
  getExternalAddresses ifs
  = flat_map (λ k, map addr_address (filter (λ a, pushed a = true) (snd k))) ifs.
Proof.
  unfold getExternalAddresses.
  enough (∀ acc,
    fold_left (λ addresses k, fold_left visit_address (snd k) addresses) ifs acc
    = acc ++ flat_map
        (λ k, map addr_address (filter (λ a, pushed a = true) (snd k))) ifs)
    as H by exact (H []).
  induction ifs as [|k ifs IH]; intros acc; cbn [fold_left flat_map].
  - by rewrite app_nil_r.
  - rewrite IH, fold_visit_address. by rewrite <- app_assoc.
Qed.

(** An address of the enumeration is returned exactly when it is IPv4, not
    internal, its first component is not ["169"] and its second component is
    not ["254"]. *)
Lemma elem_of_getExternalAddresses (ifs : interfaces) (a : string) :
  a ∈ getExternalAddresses ifs ↔
  ∃ k addr, (k ∈ ifs) ∧ (addr ∈ snd k) ∧ addr_address addr = a
    ∧ addr_family addr = "IPv4" ∧ addr_internal addr = false
    ∧ octet 0 a ≠ Some "169" ∧ octet 1 a ≠ Some "254".
Proof.
  rewrite getExternalAddresses_flat, list_elem_of_In, in_flat_map.
  assert (∀ addr, pushed addr = true ↔
            addr_family addr = "IPv4" ∧ addr_internal addr = false
            ∧ octet 0 (addr_address addr) ≠ Some "169"
            ∧ octet 1 (addr_address addr) ≠ Some "254") as P.
  { intros addr. unfold pushed, strict_ne.
    rewrite !andb_true_iff, !negb_true_iff, !bool_decide_eq_false,
      String.eqb_eq. tauto. }
  split.
  - intros (k & Hk & Ha). apply list_elem_of_In, list_elem_of_fmap in Ha.
    destruct Ha as (addr & -> & Hin). apply list_elem_of_filter in Hin.
    destruct Hin as [Hp Hin]. apply P in Hp.
    exists k, addr. split; [by apply list_elem_of_In|].
    split; [done|]. split; [done|]. tauto.
  - intros (k & addr & Hk & Hin & <- & Hrest).
    exists k. split; [by apply list_elem_of_In|].
    apply list_elem_of_In, list_elem_of_fmap. exists addr. split; [done|].
    apply list_elem_of_filter. split; [|done]. apply P. tauto.
Qed.

(** C2 (code defect): two IPv4, non-internal addresses outside
    169.254.0.0/16 are enumerated and neither is returned: the guard
    [octets[0] !== "169" && octets[1] !== "254"] drops every address whose
    first component is ["169"] and every address whose second component is
    ["254"]. *)
Theorem getExternalAddresses_drops_outside_link_local :
  link_local "169.1.2.3" = false
  ∧ link_local "10.254.0.1" = false
  ∧ getExternalAddresses
      [("en0", [ {| addr_address := "169.1.2.3"; addr_family := "IPv4";
                    addr_internal := false |} ]);
       ("en1", [ {| addr_address := "10.254.0.1"; addr_family := "IPv4";
                    addr_internal := false |} ])] = [].
Proof. repeat split; vm_compute; reflexivity. Qed.

(** ** The subnet filter *)

(** C1 (confirmed): the filter calls [next()] exactly when the client
    address is there (a non-empty string) and its components 0, 1 and 2 equal
    those of the server address; when it calls [next()] it leaves the
    response alone, and otherwise it sets status 403, ends the response with
    ["Forbidden"] and does not call [next()]. *)
Theorem rejectOffSubnetRequests_admits (serverAddress : string)
    (req : request) (res : response) :
  let h := rejectOffSubnetRequests serverAddress req res in
  (h_next h = true ↔
     ∃ c, remoteAddress req = Some c ∧ c ≠ ""
       ∧ octet 0 c = octet 0 serverAddress
       ∧ octet 1 c = octet 1 serverAddress
       ∧ octet 2 c = octet 2 serverAddress)
  ∧ (h_next h = true ∧ h_response h = res
     ∨ h_next h = false
       ∧ h_response h = {| statusCode := 403; ended := Some "Forbidden" |}).
Proof.
  unfold rejectOffSubnetRequests, strict_eq, truthy.
  destruct (remoteAddress req) as [c|]; cbn zeta.
  2:{ cbn. split; [|by right]. split; [discriminate|].
      by intros (c & ? & _). }
  destruct (String.eqb c "") eqn:Ec; cbn [negb].
  { apply String.eqb_eq in Ec. cbn. split; [|by right].
    split; [discriminate|]. intros (c' & [= <-] & Hne & _). done. }
  apply String.eqb_neq in Ec.
  destruct (bool_decide (octet 0 c = octet 0 serverAddress)) eqn:E0;
  destruct (bool_decide (octet 1 c = octet 1 serverAddress)) eqn:E1;
  destruct (bool_decide (octet 2 c = octet 2 serverAddress)) eqn:E2;
  cbn;
  repeat match goal with
  | H : bool_decide _ = true |- _ => apply bool_decide_eq_true in H
  | H : bool_decide _ = false |- _ => apply bool_decide_eq_false in H
  end.
  1:{ split; [|by left]. split; [|done]. intros _. by exists c. }
  all: split; [|by right].
  all: split; [discriminate|].
  all: intros (c' & [= <-] & _ & H0 & H1 & H2); done.
Qed.

(** For a server address whose first component is not empty (every dotted
    quad), an empty client address is turned away by the comparison alone:
    being there and being non-empty then coincide. *)
Lemma rejectOffSubnetRequests_present (serverAddress c : string) :
  octet 0 serverAddress ≠ Some "" →
  octet 0 c = octet 0 serverAddress → c ≠ "".
Proof. intros Hs Hc ->. apply Hs. rewrite <- Hc. reflexivity. Qed.

Example filter_same_subnet :
  h_next (rejectOffSubnetRequests "10.0.1.5"
            {| remoteAddress := Some "10.0.1.42" |}
            {| statusCode := 200; ended := None |}) = true.
Proof. reflexivity. Qed.

Example filter_other_subnet :
  rejectOffSubnetRequests "10.0.1.5"
    {| remoteAddress := Some "10.0.2.42" |}
    {| statusCode := 200; ended := None |}
  = {| h_response := {| statusCode := 403; ended := Some "Forbidden" |};
       h_next := false;
       h_log := ["Rejecting off-subnet request from address: 10.0.2.42"] |}.
Proof. reflexivity. Qed.

Example filter_no_address :
  rejectOffSubnetRequests "10.0.1.5"
    {| remoteAddress := None |}
    {| statusCode := 200; ended := None |}
  = {| h_response := {| statusCode := 403; ended := Some "Forbidden" |};
       h_next := false;
       h_log := ["Rejecting off-subnet request from address: undefined"] |}.
Proof. reflexivity. Qed.

(** ** The registry *)

Lemma connect_static_nonempty (root : string) :
  root ≠ "" → connect_static root = inr (MwStatic root).
Proof.
  intros H. unfold connect_static, truthy.
  apply String.eqb_neq in H. by rewrite H.
Qed.

(** [connect_static] either throws, on the empty root only, or returns
    the middleware for the root. *)
Lemma connect_static_cases (root : string) :
  root = "" ∧ connect_static root = inl static_root_required
  ∨ root ≠ "" ∧ connect_static root = inr (MwStatic root).
Proof.
  destruct (decide (root = "")) as [->|H]; [by left|].
  right. split; [done|by apply connect_static_nonempty].
Qed.

Lemma _cmdGetServer_hit (path : string) (e : env) (w : world) (en : entry) :
  _servers w !! getPathKey path = Some en →
  _cmdGetServer path e w = (Callback [JNull; address en], w).
Proof.
  intros H. unfold _cmdGetServer. cbn zeta.
  rewrite js_get_getPathKey, H. reflexivity.
Qed.

Lemma _cmdGetServer_miss (path : string) (e : env) (w : world) :
  _servers w !! getPathKey path = None →
  _cmdGetServer path e w =
  match _createServer path e w with
  | (Created c, w') =>
      if truthy (c_err c) then (Callback [c_err c; JNull], w')
      else (Callback [JNull; c_address c],
            set_servers
              (<[getPathKey path :=
                   {| server := c_server c; address := c_address c |}]>
                 (_servers w')) w')
  | (CreateThrows what, w') => (Throws what, w')
  end.
Proof.
  intros H. unfold _cmdGetServer. cbn zeta.
  rewrite js_get_getPathKey, H. reflexivity.
Qed.

(** [_createServer] never touches the table. *)
Lemma _createServer_servers (path : string) (e : env) (w : world) :
  _servers (snd (_createServer path e w)) = _servers w.
Proof.
  unfold _createServer. cbn zeta.
  destruct (getExternalAddresses _); [reflexivity|].
  destruct (connect_static path); [reflexivity|].
  destruct (get_error e); reflexivity.
Qed.

(** C3 (confirmed): with an entry under the key of [path], [getServer]
    answers with the stored address and leaves the world as it is (no server
    is created, nothing starts listening); and when a first call has answered
    with an address, a second call on the world it left answers with the
    same address, changes nothing, and the table holds the entry of that
    address under the key. *)
Theorem getServer_idempotent (path : string) (e1 e2 : env) (w : world) :
  (∀ en, _servers w !! getPathKey path = Some en →
     _cmdGetServer path e1 w = (Callback [JNull; address en], w))
  ∧ (∀ a w1, _cmdGetServer path e1 w = (Callback [JNull; a], w1) →
       _cmdGetServer path e2 w1 = (Callback [JNull; a], w1)
       ∧ ∃ en, _servers w1 !! getPathKey path = Some en ∧ address en = a).
Proof.
  split; [intros en; apply _cmdGetServer_hit|].
  intros a w1 H.
  destruct (_servers w !! getPathKey path) as [en|] eqn:L.
  - rewrite (_cmdGetServer_hit _ _ _ _ L) in H. injection H as <- <-.
    split; [by apply _cmdGetServer_hit|]. by exists en.
  - rewrite (_cmdGetServer_miss _ _ _ L) in H.
    destruct (_createServer path e1 w) as [[c|what] w']; [|discriminate H].
    destruct (truthy (c_err c)) eqn:T.
    + injection H as Herr _ _. rewrite Herr in T. discriminate.
    + injection H as <- <-.
      set (en := {| server := c_server c; address := c_address c |}).
      assert (_servers (set_servers (<[getPathKey path := en]> (_servers w')) w')
                !! getPathKey path = Some en) as L'
        by (cbn; apply lookup_insert_eq).
      split; [exact (_cmdGetServer_hit _ _ _ _ L')|]. by exists en.
Qed.

Lemma getServer_idempotent_witness :
  _cmdGetServer "/a/b" env_refused
    (snd (_cmdGetServer "/a/b" env_ok initial_world))
  = (Callback [JNull;
               JObj [("address", JStr "10.0.1.5"); ("port", JNum 49152)]],
     snd (_cmdGetServer "/a/b" env_ok initial_world))
  ∧ ∃ en,
      _servers (snd (_cmdGetServer "/a/b" env_ok initial_world))
        !! getPathKey "/a/b" = Some en
      ∧ address en
        = JObj [("address", JStr "10.0.1.5"); ("port", JNum 49152)].
Proof.
  apply (proj2 (getServer_idempotent "/a/b" env_ok env_refused initial_world)).
  reflexivity.
Defined.

(** C5 (confirmed): with no entry under the key and an enumeration that
    returns no address, [getServer] completes with the error string and a
    null address, and the world (the table included) is unchanged. *)
Theorem getServer_no_address (path : string) (e : env) (w : world) :
  getExternalAddresses (networkInterfaces e) = [] →
  _servers w !! getPathKey path = None →
  _cmdGetServer path e w
  = (Callback [JStr "Could not find an external IP address"; JNull], w)
  ∧ _servers (snd (_cmdGetServer path e w)) !! getPathKey path = None.
Proof.
  intros Ha L.
  assert (_cmdGetServer path e w
    = (Callback [JStr "Could not find an external IP address"; JNull], w)) as E.
  { rewrite (_cmdGetServer_miss _ _ _ L). unfold _createServer. cbn zeta.
    rewrite Ha. reflexivity. }
  rewrite E. split; [reflexivity|exact L].
Qed.

Lemma getServer_no_address_witness :
  _cmdGetServer "/a/b" env_offline initial_world
  = (Callback [JStr "Could not find an external IP address"; JNull],
     initial_world)
  ∧ _servers (snd (_cmdGetServer "/a/b" env_offline initial_world))
      !! getPathKey "/a/b" = None.
Proof.
  apply (getServer_no_address "/a/b" env_offline initial_world);
    reflexivity.
Defined.

(** C6, as stated, fails: the warm-up GET of the first server ever created
    is refused; the call reports the error and stores nothing, but server 0
    is still listening on its port and no [close] was issued. *)
Lemma warmup_failure_counterexample :
  fst (_cmdGetServer "/a/b" env_refused initial_world)
  = Callback [JStr "Could not GET root after launching server"; JNull]
  ∧ _servers (snd (_cmdGetServer "/a/b" env_refused initial_world))
      !! getPathKey "/a/b" = None
  ∧ ¬ released 0 (snd (_cmdGetServer "/a/b" env_refused initial_world))
  ∧ trace (snd (_cmdGetServer "/a/b" env_refused initial_world))
    = [EvListen 0 49153; EvGetRoot "10.0.1.5" 49153].
Proof.
  split; [reflexivity|]. split; [reflexivity|]. split; [|reflexivity].
  unfold released. vm_compute. discriminate.
Qed.

(** C6 (amended): for a non-empty path with no entry under its key, an
    address to use and a warm-up GET that fails, [getServer] completes with
    the error string and a null address and the table is unchanged; the
    server that was created is not closed: it is still listening on its
    port, and the call did nothing but start it and probe it. *)
Theorem getServer_warmup_failure (path : string) (e : env) (w : world)
    (host : string) (rest : list string) (err : string) :
  path ≠ "" →
  _servers w !! getPathKey path = None →
  getExternalAddresses (networkInterfaces e) = host :: rest →
  get_error e = Some err →
  fst (_cmdGetServer path e w)
  = Callback [JStr "Could not GET root after launching server"; JNull]
  ∧ _servers (snd (_cmdGetServer path e w)) = _servers w
  ∧ listening (snd (_cmdGetServer path e w))
    = <[next_server w := listen_port e]> (listening w)
  ∧ trace (snd (_cmdGetServer path e w))
    = trace w ++ [EvListen (next_server w) (listen_port e);
                  EvGetRoot host (listen_port e)].
Proof.
  intros Hp L Ha Hg. rewrite (_cmdGetServer_miss _ _ _ L).
  unfold _createServer. cbn zeta.
  rewrite Ha, (connect_static_nonempty _ Hp), Hg. cbn.
  repeat split. by rewrite <- app_assoc.
Qed.

Lemma getServer_warmup_failure_witness :
  fst (_cmdGetServer "/a/b" env_refused initial_world)
  = Callback [JStr "Could not GET root after launching server"; JNull]
  ∧ _servers (snd (_cmdGetServer "/a/b" env_refused initial_world))
    = _servers initial_world
  ∧ listening (snd (_cmdGetServer "/a/b" env_refused initial_world))
    = <[next_server initial_world := listen_port env_refused]>
        (listening initial_world)
  ∧ trace (snd (_cmdGetServer "/a/b" env_refused initial_world))
    = trace initial_world
      ++ [EvListen (next_server initial_world) (listen_port env_refused);
          EvGetRoot "10.0.1.5" (listen_port env_refused)].
Proof.
  apply (getServer_warmup_failure "/a/b" env_refused initial_world
           "10.0.1.5" [] "ECONNREFUSED"); [discriminate|reflexivity..].
Defined.

(** ** The request pipeline *)

(** C9, as stated, fails: in the server created for ["/a/b"] the size
    limit is not installed before the file serving. *)
Lemma pipeline_order_counterexample :
  handed_error (fst (_createServer "/a/b" env_ok initial_world)) = JNull
  ∧ ¬ installed_before (MwLimit "1mb") (MwStatic "/a/b")
        (created_app (fst (_createServer "/a/b" env_ok initial_world))).
Proof.
  split; [reflexivity|].
  intros (i & j & Hi & Hj & Hlt).
  change (created_app (fst (_createServer "/a/b" env_ok initial_world)))
    with [MwRejectOffSubnet "10.0.1.5"; MwStatic "/a/b"; MwLimit "1mb"]
    in Hi, Hj.
  destruct i as [|[|[|i]]]; cbn in Hi; try discriminate Hi.
  destruct j as [|[|[|j]]]; cbn in Hj; try discriminate Hj. lia.
Qed.

(** C9 (amended): every server that a creation hands out has exactly three
    stages, in this order: the subnet filter for the first external
    address, the file serving rooted at the requested path, the ["1mb"]
    limit; so the filter comes first and the limit comes after the file
    serving. *)
Theorem createServer_pipeline (path : string) (e : env) (w : world)
    (srv : httpServer) :
  handed_server (fst (_createServer path e w)) = Some srv →
  ∃ host,
    head (getExternalAddresses (networkInterfaces e)) = Some host
    ∧ srv_app srv = [MwRejectOffSubnet host; MwStatic path; MwLimit "1mb"]
    ∧ installed_before (MwRejectOffSubnet host) (MwStatic path) (srv_app srv)
    ∧ installed_before (MwStatic path) (MwLimit "1mb") (srv_app srv).
Proof.
  unfold _createServer. cbn zeta.
  destruct (getExternalAddresses (networkInterfaces e)) as [|host rest];
    [discriminate|].
  destruct (connect_static_cases path) as [[_ ->]|[_ ->]]; [discriminate|].
  destruct (get_error e); [discriminate|]. cbn. intros [= <-].
  exists host. cbn. repeat split.
  - exists 0, 1. cbn. repeat split. lia.
  - exists 1, 2. cbn. repeat split. lia.
Qed.

Lemma createServer_pipeline_witness :
  ∃ host,
    head (getExternalAddresses (networkInterfaces env_ok)) = Some host
    ∧ srv_app {| srv_id := 0;
                 srv_app := [MwRejectOffSubnet "10.0.1.5"; MwStatic "/a/b";
                             MwLimit "1mb"] |}
      = [MwRejectOffSubnet host; MwStatic "/a/b"; MwLimit "1mb"]
    ∧ installed_before (MwRejectOffSubnet host) (MwStatic "/a/b")
        (srv_app {| srv_id := 0;
                    srv_app := [MwRejectOffSubnet "10.0.1.5"; MwStatic "/a/b";
                                MwLimit "1mb"] |})
    ∧ installed_before (MwStatic "/a/b") (MwLimit "1mb")
        (srv_app {| srv_id := 0;
                    srv_app := [MwRejectOffSubnet "10.0.1.5"; MwStatic "/a/b";
                                MwLimit "1mb"] |}).
Proof.
  apply (createServer_pipeline "/a/b" env_ok initial_world). reflexivity.
Defined.

(** ** Closing a server *)

Lemma _cmdCloseServer_absent (path : string) (w : world) :
  _servers w !! getPathKey path = None →
  _cmdCloseServer path w = (Callback [JStr path], w).
Proof.
  intros H. unfold _cmdCloseServer. cbn zeta.
  rewrite js_get_getPathKey, H. reflexivity.
Qed.

(** With an entry that holds a server, the entry is deleted first, then
    [close] is called on the server that was stored, and the callback gets
    a null error and the path. *)
Lemma _cmdCloseServer_present (path : string) (w : world)
    (srv : httpServer) (a : jsval) :
  _servers w !! getPathKey path = Some {| server := Some srv; address := a |} →
  let r := _cmdCloseServer path w in
  fst r = Callback [JNull; JStr path]
  ∧ _servers (snd r) = delete (getPathKey path) (_servers w)
  ∧ listening (snd r) = delete (srv_id srv) (listening w)
  ∧ trace (snd r) = trace w ++ [EvDelete (getPathKey path); EvClose (srv_id srv)].
Proof.
  intros H. unfold _cmdCloseServer. cbn zeta.
  rewrite js_get_getPathKey, H. cbn. repeat split. by rewrite <- app_assoc.
Qed.

(** C4 (code defect): [closeServer] never hands a boolean to its callback.
    For a path that was never requested the callback gets the path as its
    first, error, argument; for a path with a server it gets a null error
    and the path as the result. *)
Theorem closeServer_never_boolean :
  (∀ path w b, fst (_cmdCloseServer path w) ≠ Callback [JNull; JBool b])
  ∧ _cmdCloseServer "/never/requested" initial_world
    = (Callback [JStr "/never/requested"], initial_world)
  ∧ cb_error (fst (_cmdCloseServer "/never/requested" initial_world))
    = JStr "/never/requested"
  ∧ cb_result
      (fst (_cmdCloseServer "/a/b"
              (snd (_cmdGetServer "/a/b" env_ok initial_world))))
    = JStr "/a/b".
Proof.
  split; [|repeat split].
  intros path w b. unfold _cmdCloseServer. cbn zeta.
  destruct (js_get _ _) as [en| |]; [|discriminate..].
  destruct (server en); discriminate.
Qed.

(** ** The address handed to callers *)

Lemma _createServer_address (path : string) (e : env) (w : world)
    (c : created) :
  fst (_createServer path e w) = Created c →
  truthy (c_err c) = false →
  ∃ host port,
    c_address c = JObj [("address", JStr host); ("port", JNum port)].
Proof.
  unfold _createServer. cbn zeta.
  destruct (getExternalAddresses _) as [|host rest];
    [by intros [= <-]|].
  destruct (connect_static path); [discriminate|].
  destruct (get_error e); intros [= <-]; [discriminate|].
  intros _. by eexists _, _.
Qed.

Lemma reachable_addresses_two_fields (w : world) :
  reachable w → addresses_two_fields w.
Proof.
  induction 1 as [|path e w _ IH|path w _ IH]; intros k en.
  - cbn. by rewrite lookup_empty.
  - unfold _cmdGetServer. cbn zeta.
    destruct (js_get (_servers w) (getPathKey path)); [apply IH..|].
    pose proof (_createServer_servers path e w) as Hs.
    pose proof (_createServer_address path e w) as Ha.
    destruct (_createServer path e w) as [[c|what] w']; cbn in Hs, Ha.
    2:{ cbn. rewrite Hs. apply IH. }
    specialize (Ha c eq_refl).
    destruct (truthy (c_err c)); cbn.
    + rewrite Hs. apply IH.
    + rewrite Hs, lookup_insert. case_decide.
      * intros [= <-]. cbn. by apply Ha.
      * apply IH.
  - unfold _cmdCloseServer. cbn zeta.
    destruct (js_get (_servers w) (getPathKey path)) as [en'| |].
    + destruct (server en'); cbn; rewrite lookup_delete; case_decide;
        try discriminate; apply IH.
    + cbn. rewrite lookup_delete. case_decide; [discriminate|apply IH].
    + apply IH.
Qed.

(** C8 (code defect): in every world the commands can reach, the address a
    successful [getServer] hands to its callback has an address and a port
    and no [family] property. *)
Theorem getServer_address_has_no_family (path : string) (e : env) (w : world)
    (a : jsval) :
  reachable w →
  cb_error (fst (_cmdGetServer path e w)) = JNull →
  cb_result (fst (_cmdGetServer path e w)) = a →
  get_field "family" a = JUndefined
  ∧ get_field "family" a ≠ JStr "IPv4"
  ∧ ∃ host port, a = JObj [("address", JStr host); ("port", JNum port)].
Proof.
  intros Hw Herr Hres.
  enough (∃ host port, a = JObj [("address", JStr host); ("port", JNum port)])
    as (host & port & ->) by (repeat split; [discriminate|by eexists _, _]).
  pose proof (reachable_addresses_two_fields _ Hw) as Inv.
  destruct (_servers w !! getPathKey path) as [en|] eqn:L.
  - rewrite (_cmdGetServer_hit _ _ _ _ L) in Hres. cbn in Hres. subst a.
    exact (Inv _ _ L).
  - rewrite (_cmdGetServer_miss _ _ _ L) in Herr, Hres.
    pose proof (_createServer_address path e w) as Ha.
    destruct (_createServer path e w) as [[c|what] w']; cbn in Ha;
      [|discriminate Herr].
    specialize (Ha c eq_refl).
    destruct (truthy (c_err c)) eqn:T; cbn in Herr, Hres.
    + rewrite Herr in T. discriminate.
    + subst a. by apply Ha.
Qed.

Lemma getServer_address_has_no_family_witness :
  get_field "family"
    (JObj [("address", JStr "10.0.1.5"); ("port", JNum 49152)]) = JUndefined
  ∧ get_field "family"
      (JObj [("address", JStr "10.0.1.5"); ("port", JNum 49152)])
    ≠ JStr "IPv4"
  ∧ ∃ host port,
      JObj [("address", JStr "10.0.1.5"); ("port", JNum 49152)]
      = JObj [("address", JStr host); ("port", JNum port)].
Proof.
  apply (getServer_address_has_no_family "/a/b" env_ok initial_world);
    [apply reach_init|reflexivity|reflexivity].
Defined.

(** * Further properties of the commands *)

(** ** Case analysis of the two commands *)

Lemma js_get_Absent (o : gmap string entry) (k : string) :
  js_get o k = Absent → o !! k = None.
Proof. unfold js_get. destruct (o !! k); [discriminate|done]. Qed.

(** The five ways a [getServer] call can go. *)
Lemma _cmdGetServer_cases (path : string) (e : env) (w : world) :
  (∃ en, _servers w !! getPathKey path = Some en
     ∧ _cmdGetServer path e w = (Callback [JNull; address en], w))
  ∨ (_servers w !! getPathKey path = None
     ∧ getExternalAddresses (networkInterfaces e) = []
     ∧ _cmdGetServer path e w = (Callback [JStr no_address_error; JNull], w))
  ∨ (∃ host rest err,
       path ≠ ""
       ∧ _servers w !! getPathKey path = None
       ∧ getExternalAddresses (networkInterfaces e) = host :: rest
       ∧ get_error e = Some err
       ∧ _cmdGetServer path e w
         = (Callback [JStr warmup_error; JNull], started host path e w))
  ∨ (∃ host rest,
       path ≠ ""
       ∧ _servers w !! getPathKey path = None
       ∧ getExternalAddresses (networkInterfaces e) = host :: rest
       ∧ get_error e = None
       ∧ _cmdGetServer path e w
         = (Callback [JNull; address_object host (listen_port e)],
            set_servers
              (<[getPathKey path :=
                   {| server := Some {| srv_id := next_server w;
                                        srv_app := pipeline host path |};
                      address := address_object host (listen_port e) |}]>
                 (_servers w))
              (started host path e w)))
  ∨ (∃ host rest,
       path = ""
       ∧ _servers w !! getPathKey path = None
       ∧ getExternalAddresses (networkInterfaces e) = host :: rest
       ∧ _cmdGetServer path e w = (Throws static_root_required, w)).
Proof.
  destruct (_servers w !! getPathKey path) as [en|] eqn:L.
  { left. exists en. split; [done|]. by apply _cmdGetServer_hit. }
  right. rewrite (_cmdGetServer_miss _ _ _ L). unfold _createServer. cbn zeta.
  destruct (getExternalAddresses (networkInterfaces e)) as [|host rest] eqn:A.
  { left. done. }
  right.
  destruct (connect_static_cases path) as [[Hp ->]|[Hp ->]].
  { right. right. by exists host, rest. }
  destruct (get_error e) as [err|] eqn:G.
  - left. exists host, rest, err. done.
  - right. left. exists host, rest. done.
Qed.

(** The three ways a [closeServer] call can go. *)
Lemma _cmdCloseServer_cases (path : string) (w : world) :
  (_servers w !! getPathKey path = None
   ∧ _cmdCloseServer path w = (Callback [JStr path], w))
  ∨ (∃ en srv,
       _servers w !! getPathKey path = Some en ∧ server en = Some srv
       ∧ _cmdCloseServer path w
         = (Callback [JNull; JStr path],
            close srv (delete_server (getPathKey path) w)))
  ∨ (∃ en,
       _servers w !! getPathKey path = Some en ∧ server en = None
       ∧ _cmdCloseServer path w
         = (Throws "TypeError", delete_server (getPathKey path) w)).
Proof.
  unfold _cmdCloseServer. cbn zeta. rewrite js_get_getPathKey.
  destruct (_servers w !! getPathKey path) as [en|] eqn:L; [|by left].
  right. destruct (server en) as [srv|] eqn:S.
  - left. by exists en, srv.
  - right. by exists en.
Qed.

(** ** The invariant of the table *)

Lemma started_servers (host root : string) (e : env) (w : world) :
  _servers (started host root e w) = _servers w.
Proof. reflexivity. Qed.

Lemma started_listening (host root : string) (e : env) (w : world) :
  listening (started host root e w)
  = <[next_server w := listen_port e]> (listening w).
Proof. reflexivity. Qed.

Lemma started_next_server (host root : string) (e : env) (w : world) :
  next_server (started host root e w) = S (next_server w).
Proof. reflexivity. Qed.

Lemma registry_ok_initial : registry_ok initial_world.
Proof.
  repeat split; cbn; intros *; rewrite lookup_empty; discriminate.
Qed.

(** A live entry of [w] stays live when a new server starts. *)
Lemma entry_live_started (host root : string) (e : env) (w : world)
    (k : string) (en : entry) :
  registry_ok w → entry_live w k en → entry_live (started host root e w) k en.
Proof.
  intros (_ & _ & Hb) (srv & h & p & r & Hs & Ha & Hp & Hk & Hl).
  exists srv, h, p, r. repeat split; try done.
  rewrite started_listening, lookup_insert_ne; [done|].
  apply Hb in Hl. lia.
Qed.

Lemma registry_ok_started (host root : string) (e : env) (w : world) :
  registry_ok w → registry_ok (started host root e w).
Proof.
  intros Hok. pose proof Hok as (Hl & Hu & Hb). repeat split.
  - intros k en H. rewrite started_servers in H.
    by apply entry_live_started, Hl.
  - intros *. rewrite !started_servers. apply Hu.
  - intros id port. rewrite started_listening, started_next_server,
      lookup_insert. case_decide; [lia|]. intros Hli. apply Hb in Hli. lia.
Qed.

Lemma registry_ok_registered (host path : string) (e : env) (w : world) :
  registry_ok w →
  registry_ok
    (set_servers
       (<[getPathKey path :=
            {| server := Some {| srv_id := next_server w;
                                 srv_app := pipeline host path |};
               address := address_object host (listen_port e) |}]>
          (_servers w))
       (started host path e w)).
Proof.
  intros Hok. pose proof (registry_ok_started host path e w Hok) as (Hl' & _ & Hb').
  pose proof Hok as (Hl & Hu & Hb).
  assert (∀ k en s, _servers w !! k = Some en → server en = Some s →
            srv_id s < next_server w) as Hold.
  { intros k en s H Hs. destruct (Hl _ _ H) as (srv & h & p & r & Hs' & _ & _ & _ & Hli).
    rewrite Hs in Hs'. injection Hs' as ->. by apply Hb in Hli. }
  repeat split.
  - intros k en. cbn [_servers set_servers]. rewrite lookup_insert.
    case_decide as Hk.
    + intros [= <-]. exists {| srv_id := next_server w; srv_app := pipeline host path |},
        host, (listen_port e), path.
      repeat split; [done|]. cbn [listening set_servers srv_id].
      rewrite started_listening. apply lookup_insert_eq.
    + intros Hin. apply (Hl' k en). by rewrite started_servers.
  - intros k1 k2 en1 en2 s1 s2. cbn [_servers set_servers].
    rewrite !lookup_insert. repeat case_decide; subst.
    + done.
    + intros [= <-] H2 [= <-] Hs2 Hid. cbn in Hid.
      pose proof (Hold _ _ _ H2 Hs2). lia.
    + intros H1 [= <-] Hs1 [= <-] Hid. cbn in Hid.
      pose proof (Hold _ _ _ H1 Hs1). lia.
    + apply Hu.
  - exact Hb'.
Qed.

Lemma registry_ok_delete (k : string) (w : world) :
  registry_ok w → registry_ok (delete_server k w).
Proof.
  intros (Hl & Hu & Hb). repeat split.
  - intros k' en. cbn [_servers delete_server]. rewrite lookup_delete.
    case_decide; [discriminate|]. intros Hin.
    destruct (Hl _ _ Hin) as (srv & h & p & r & ?). by exists srv, h, p, r.
  - intros k1 k2 en1 en2 s1 s2. cbn [_servers delete_server].
    rewrite !lookup_delete. repeat case_decide; try discriminate. apply Hu.
  - exact Hb.
Qed.

Lemma registry_ok_close (path : string) (w : world) (en : entry)
    (srv : httpServer) :
  registry_ok w →
  _servers w !! getPathKey path = Some en → server en = Some srv →
  registry_ok (close srv (delete_server (getPathKey path) w)).
Proof.
  intros (Hl & Hu & Hb) L S. repeat split.
  - intros k' en'. cbn [_servers close delete_server]. rewrite lookup_delete.
    case_decide as Hk; [discriminate|]. intros Hin.
    destruct (Hl _ _ Hin) as (srv' & h & p & r & Hs' & Ha & Hp & Hr & Hli).
    exists srv', h, p, r. repeat split; try done.
    cbn [listening close delete_server]. rewrite lookup_delete_ne; [done|].
    intros Hid. apply Hk. exact (Hu _ _ _ _ _ _ L Hin S Hs' Hid).
  - intros k1 k2 en1 en2 s1 s2. cbn [_servers close delete_server].
    rewrite !lookup_delete. repeat case_decide; try discriminate. apply Hu.
  - intros id port. cbn [listening next_server close delete_server].
    rewrite lookup_delete. case_decide; [discriminate|]. apply Hb.
Qed.

Lemma registry_ok_getServer (path : string) (e : env) (w : world) :
  registry_ok w → registry_ok (snd (_cmdGetServer path e w)).
Proof.
  intros Hok.
  destruct (_cmdGetServer_cases path e w)
    as [(en & _ & ->)|[(_ & _ & ->)|[(h & r & err & _ & _ & _ & _ & ->)
        |[(h & r & _ & _ & _ & _ & ->)|(h & r & _ & _ & _ & ->)]]]]; cbn [snd].
  - done.
  - done.
  - by apply registry_ok_started.
  - by apply registry_ok_registered.
  - done.
Qed.

Lemma registry_ok_closeServer (path : string) (w : world) :
  registry_ok w → registry_ok (snd (_cmdCloseServer path w)).
Proof.
  intros Hok.
  destruct (_cmdCloseServer_cases path w)
    as [(_ & ->)|[(en & srv & L & S & ->)|(en & _ & _ & ->)]]; cbn [snd].
  - done.
  - by eapply registry_ok_close.
  - by apply registry_ok_delete.
Qed.

Lemma reachable_registry_ok (w : world) : reachable w → registry_ok w.
Proof.
  induction 1 as [|path e w _ IH|path w _ IH].
  - apply registry_ok_initial.
  - by apply registry_ok_getServer.
  - by apply registry_ok_closeServer.
Qed.

(** ** Normalization and keys, further *)

Lemma slice_0_m1_last_char (s : string) (c : ascii) :
  JsString.last_char s = Some c →
  s = JsString.slice_0_m1 s +:+ String c EmptyString.
Proof.
  induction s as [|a s IH]; [discriminate|].
  destruct s as [|b s].
  - cbn. by intros [= ->].
  - intros H.
    change (String a (String b s)
            = String a (JsString.slice_0_m1 (String b s) +:+ String c EmptyString)).
    f_equal. apply IH. exact H.
Qed.

Lemma length_append (s t : string) :
  String.length (s +:+ t) = String.length s + String.length t.
Proof. induction s as [|a s IH]; simpl; [reflexivity|by f_equal]. Qed.

Lemma normalizeRootPath_cases (p : string) :
  (normalizeRootPath p = p ∧ JsString.last_char p ≠ Some slash)
  ∨ p = normalizeRootPath p +:+ "/".
Proof.
  destruct (decide (JsString.last_char p = Some slash)) as [H|H].
  - right. unfold normalizeRootPath, truthy.
    rewrite (bool_decide_eq_true_2 _ H).
    destruct p as [|a p]; [discriminate H|]. cbn [String.eqb negb andb].
    by apply slice_0_m1_last_char.
  - left. split; [by apply normalizeRootPath_plain|done].
Qed.

(** X1: stripping undoes the appending of one separator, and every path is
    either its own normal form (when it does not end in a separator) or its
    normal form followed by one separator; so at most one character is
    removed. *)
Theorem normalizeRootPath_strips_one (p : string) :
  normalizeRootPath (p +:+ "/") = p
  ∧ ((normalizeRootPath p = p ∧ JsString.last_char p ≠ Some slash)
     ∨ p = normalizeRootPath p +:+ "/")
  ∧ (String.length p ≤ S (String.length (normalizeRootPath p)))%nat.
Proof.
  split; [apply normalizeRootPath_trailing|].
  split; [apply normalizeRootPath_cases|].
  destruct (normalizeRootPath_cases p) as [[-> _]|H]; [lia|].
  rewrite H at 1. rewrite length_append. cbn. lia.
Qed.

(** X2: two paths share a key only when they are equal or one is the other
    followed by one separator. *)
Theorem getPathKey_collision (p q : string) :
  getPathKey p = getPathKey q →
  p = q ∨ p = q +:+ "/" ∨ q = p +:+ "/".
Proof.
  unfold getPathKey. intros H.
  apply (String.app_inj PATH_KEY_PREFIX) in H.
  destruct (normalizeRootPath_cases p) as [[Hp _]|Hp],
           (normalizeRootPath_cases q) as [[Hq _]|Hq].
  - left. congruence.
  - right. right. rewrite Hq, <- H, Hp. reflexivity.
  - right. left. rewrite Hp, H, Hq. reflexivity.
  - left. rewrite Hp, Hq, H. reflexivity.
Qed.

Lemma getPathKey_collision_witness :
  "/a/b/" = "/a/b" ∨ "/a/b/" = "/a/b" +:+ "/" ∨ "/a/b" = "/a/b/" +:+ "/".
Proof. apply (getPathKey_collision "/a/b/" "/a/b"). reflexivity. Defined.

(** ** The external addresses, further *)

(** X3: the enumeration is taken interface by interface, in order: the
    result for two lists of interfaces one after the other is the result
    for the first followed by the result for the second, and an interface
    contributes its addresses that pass the guard, in their order. *)
Theorem getExternalAddresses_app (ifs1 ifs2 : interfaces)
    (k : string) (addrs : list ifaddr) :
  getExternalAddresses (ifs1 ++ ifs2)
  = getExternalAddresses ifs1 ++ getExternalAddresses ifs2
  ∧ getExternalAddresses ((k, addrs) :: ifs2)
    = map addr_address (filter (λ a, pushed a = true) addrs)
      ++ getExternalAddresses ifs2.
Proof.
  rewrite !getExternalAddresses_flat. split.
  - apply flat_map_app.
  - reflexivity.
Qed.

(** X4: an address is returned exactly when some enumerated entry with
    that address is IPv4, not internal, has a first component other than
    ["169"] and a second component other than ["254"]; so no address of
    169.254.0.0/16 is ever returned. *)
Theorem getExternalAddresses_membership (ifs : interfaces) (a : string) :
  (a ∈ getExternalAddresses ifs ↔
     ∃ k addr, (k ∈ ifs) ∧ (addr ∈ snd k) ∧ addr_address addr = a
       ∧ addr_family addr = "IPv4" ∧ addr_internal addr = false
       ∧ octet 0 a ≠ Some "169" ∧ octet 1 a ≠ Some "254")
  ∧ (a ∈ getExternalAddresses ifs → link_local a = false).
Proof.
  split; [apply elem_of_getExternalAddresses|].
  intros H. apply elem_of_getExternalAddresses in H.
  destruct H as (_ & _ & _ & _ & _ & _ & _ & H0 & _).
  unfold link_local, strict_eq. by rewrite (bool_decide_eq_false_2 _ H0).
Qed.

(** ** The subnet filter, further *)

(** X5: the decision depends on the first three components only: server
    addresses that agree on them, and non-empty client addresses that agree
    on them, get the same decision. *)
Theorem filter_first_three_only (s1 s2 c1 c2 : string) (res1 res2 : response) :
  c1 ≠ "" → c2 ≠ "" →
  (∀ i, i < 3 → octet i s1 = octet i s2) →
  (∀ i, i < 3 → octet i c1 = octet i c2) →
  h_next (rejectOffSubnetRequests s1 {| remoteAddress := Some c1 |} res1)
  = h_next (rejectOffSubnetRequests s2 {| remoteAddress := Some c2 |} res2).
Proof.
  intros N1 N2 Hs Hc. unfold rejectOffSubnetRequests, truthy. cbn.
  apply String.eqb_neq in N1, N2. rewrite N1, N2. cbn [negb].
  rewrite !(Hs 0), !(Hs 1), !(Hs 2), !(Hc 0), !(Hc 1), !(Hc 2) by lia.
  destruct (_ && _); reflexivity.
Qed.

Lemma filter_first_three_only_witness :
  h_next (rejectOffSubnetRequests "10.0.1.5"
            {| remoteAddress := Some "10.0.1.42" |}
            {| statusCode := 200; ended := None |})
  = h_next (rejectOffSubnetRequests "10.0.1.200"
              {| remoteAddress := Some "10.0.1.7" |}
              {| statusCode := 404; ended := None |}).
Proof.
  apply (filter_first_three_only "10.0.1.5" "10.0.1.200" "10.0.1.42" "10.0.1.7");
    try discriminate;
    intros [|[|[|i]]] Hi; try reflexivity; lia.
Defined.

(** X6: a request coming from the server's own address (as the warm-up GET
    does) passes the filter untouched, whatever the address looks like, as
    long as it is not empty. *)
Theorem filter_admits_own_address (serverAddress : string) (res : response) :
  serverAddress ≠ "" →
  rejectOffSubnetRequests serverAddress
    {| remoteAddress := Some serverAddress |} res
  = {| h_response := res; h_next := true; h_log := [] |}.
Proof.
  intros N. unfold rejectOffSubnetRequests, truthy, strict_eq. cbn.
  apply String.eqb_neq in N. rewrite N. cbn [negb].
  rewrite !bool_decide_eq_true_2 by reflexivity. reflexivity.
Qed.

Lemma filter_admits_own_address_witness :
  rejectOffSubnetRequests "10.0.1.5"
    {| remoteAddress := Some "10.0.1.5" |}
    {| statusCode := 200; ended := None |}
  = {| h_response := {| statusCode := 200; ended := None |};
       h_next := true; h_log := [] |}.
Proof. apply (filter_admits_own_address "10.0.1.5"). discriminate. Defined.

(** ** The registry, further *)

(** X7: in every world the commands can reach, an entry stored under a
    key holds a server that is listening on the port the entry reports,
    whose subnet filter is bound to the address the entry reports, and
    whose files are rooted at a path with that key. *)
Theorem reachable_entries_live (w : world) (k : string) (en : entry) :
  reachable w → _servers w !! k = Some en → entry_live w k en.
Proof. intros Hw H. destruct (reachable_registry_ok w Hw) as (Hl & _). by apply Hl. Qed.

Lemma reachable_entries_live_witness :
  entry_live (snd (_cmdGetServer "/a/b/" env_ok initial_world))
    (getPathKey "/a/b")
    {| server := Some {| srv_id := 0; srv_app := pipeline "10.0.1.5" "/a/b/" |};
       address := address_object "10.0.1.5" 49152 |}.
Proof.
  apply reachable_entries_live; [apply reach_get, reach_init|reflexivity].
Defined.

(** X8: in every world the commands can reach, entries under different
    keys hold different servers, and every listening server has a number
    below that of the next server to be created. *)
Theorem reachable_servers_distinct (w : world) (k1 k2 : string)
    (en1 en2 : entry) (s1 s2 : httpServer) :
  reachable w → k1 ≠ k2 →
  _servers w !! k1 = Some en1 → _servers w !! k2 = Some en2 →
  server en1 = Some s1 → server en2 = Some s2 →
  srv_id s1 ≠ srv_id s2
  ∧ srv_id s1 < next_server w ∧ srv_id s2 < next_server w.
Proof.
  intros Hw Hne H1 H2 S1 S2.
  destruct (reachable_registry_ok w Hw) as (Hl & Hu & Hb).
  split; [intros Hid; apply Hne; exact (Hu _ _ _ _ _ _ H1 H2 S1 S2 Hid)|].
  destruct (Hl _ _ H1) as (y1 & h1 & p1 & r1 & E1 & _ & _ & _ & L1).
  destruct (Hl _ _ H2) as (y2 & h2 & p2 & r2 & E2 & _ & _ & _ & L2).
  rewrite S1 in E1. rewrite S2 in E2. injection E1 as <-. injection E2 as <-.
  split; eapply Hb; eassumption.
Qed.

Lemma reachable_servers_distinct_witness :
  srv_id {| srv_id := 0; srv_app := pipeline "10.0.1.5" "/a" |}
  ≠ srv_id {| srv_id := 1; srv_app := pipeline "10.0.1.5" "/b" |}
  ∧ srv_id {| srv_id := 0; srv_app := pipeline "10.0.1.5" "/a" |}
    < next_server
        (snd (_cmdGetServer "/b" env_ok
                (snd (_cmdGetServer "/a" env_ok initial_world))))
  ∧ srv_id {| srv_id := 1; srv_app := pipeline "10.0.1.5" "/b" |}
    < next_server
        (snd (_cmdGetServer "/b" env_ok
                (snd (_cmdGetServer "/a" env_ok initial_world)))).
Proof.
  apply (reachable_servers_distinct
           (snd (_cmdGetServer "/b" env_ok
                   (snd (_cmdGetServer "/a" env_ok initial_world))))
           (getPathKey "/a") (getPathKey "/b")
           {| server := Some {| srv_id := 0; srv_app := pipeline "10.0.1.5" "/a" |};
              address := address_object "10.0.1.5" 49152 |}
           {| server := Some {| srv_id := 1; srv_app := pipeline "10.0.1.5" "/b" |};
              address := address_object "10.0.1.5" 49152 |}).
  - apply reach_get, reach_get, reach_init.
  - vm_compute. discriminate.
  - reflexivity.
  - reflexivity.
  - reflexivity.
  - reflexivity.
Defined.

(** X9: in every world the commands can reach, [closeServer] never
    throws: either there is no entry, the callback gets the path as its
    only argument and the world is unchanged; or the entry's server was
    listening, the entry is gone, that server no longer listens, and the
    callback gets a null error and the path. *)
Theorem closeServer_never_throws (path : string) (w : world) :
  reachable w →
  (_servers w !! getPathKey path = None
   ∧ _cmdCloseServer path w = (Callback [JStr path], w))
  ∨ (∃ en srv port,
       _servers w !! getPathKey path = Some en ∧ server en = Some srv
       ∧ listening w !! srv_id srv = Some port
       ∧ fst (_cmdCloseServer path w) = Callback [JNull; JStr path]
       ∧ _servers (snd (_cmdCloseServer path w))
         = delete (getPathKey path) (_servers w)
       ∧ listening (snd (_cmdCloseServer path w))
         = delete (srv_id srv) (listening w)).
Proof.
  intros Hw. destruct (reachable_registry_ok w Hw) as (Hl & _).
  destruct (_cmdCloseServer_cases path w)
    as [(L & E)|[(en & srv & L & S & E)|(en & L & S & _)]].
  - by left.
  - right. destruct (Hl _ _ L) as (srv' & h & p & r & S' & _ & _ & _ & Hli).
    rewrite S in S'. injection S' as <-.
    exists en, srv, p. rewrite E. done.
  - destruct (Hl _ _ L) as (srv' & _ & _ & _ & S' & _). congruence.
Qed.

Lemma closeServer_never_throws_witness :
  (_servers initial_world !! getPathKey "/never/requested" = None
   ∧ _cmdCloseServer "/never/requested" initial_world
     = (Callback [JStr "/never/requested"], initial_world))
  ∨ (∃ en srv port,
       _servers initial_world !! getPathKey "/never/requested" = Some en
       ∧ server en = Some srv
       ∧ listening initial_world !! srv_id srv = Some port
       ∧ fst (_cmdCloseServer "/never/requested" initial_world)
         = Callback [JNull; JStr "/never/requested"]
       ∧ _servers (snd (_cmdCloseServer "/never/requested" initial_world))
         = delete (getPathKey "/never/requested") (_servers initial_world)
       ∧ listening (snd (_cmdCloseServer "/never/requested" initial_world))
         = delete (srv_id srv) (listening initial_world)).
Proof.
  apply (closeServer_never_throws "/never/requested" initial_world).
  apply reach_init.
Defined.

(** X10: whatever the world, after [closeServer] there is no entry under
    the key of the path, so closing the same path again changes nothing and
    hands the path to the callback as its only argument. *)
Theorem closeServer_twice (path : string) (w : world) :
  _servers (snd (_cmdCloseServer path w)) !! getPathKey path = None
  ∧ _cmdCloseServer path (snd (_cmdCloseServer path w))
    = (Callback [JStr path], snd (_cmdCloseServer path w)).
Proof.
  assert (_servers (snd (_cmdCloseServer path w)) !! getPathKey path = None)
    as L.
  { destruct (_cmdCloseServer_cases path w)
      as [(L & ->)|[(en & srv & _ & _ & ->)|(en & _ & _ & ->)]]; cbn.
    - exact L.
    - apply lookup_delete_eq.
    - apply lookup_delete_eq. }
  split; [exact L|]. by apply _cmdCloseServer_absent.
Qed.

Lemma _cmdGetServer_success_entry (path : string) (e : env) (w w1 : world)
    (a : jsval) :
  _cmdGetServer path e w = (Callback [JNull; a], w1) →
  ∃ en, _servers w1 !! getPathKey path = Some en ∧ address en = a.
Proof.
  intros H.
  destruct (_cmdGetServer_cases path e w)
    as [(en & L & E)|[(_ & _ & E)|[(h & r & err & _ & _ & _ & _ & E)
        |[(h & r & _ & _ & _ & _ & E)|(h & r & _ & _ & _ & E)]]]];
    rewrite E in H; try discriminate H.
  - injection H as <- <-. by exists en.
  - injection H as <- <-. eexists. split; [apply lookup_insert_eq|done].
Qed.

(** X11: closing a non-empty path and asking for it again gives another
    server than the one that was closed: in a world the commands can reach,
    with a server stored for the path, an address to use and a warm-up GET
    that answers, the entry after close-then-get holds the server numbered
    [next_server w], which is not the closed one; the closed one no longer
    listens and the new one does. *)
Theorem close_then_get_fresh (path : string) (e : env) (w : world)
    (en : entry) (srv : httpServer) (host : string) (rest : list string) :
  path ≠ "" →
  reachable w →
  _servers w !! getPathKey path = Some en → server en = Some srv →
  getExternalAddresses (networkInterfaces e) = host :: rest →
  get_error e = None →
  fst (_cmdGetServer path e (snd (_cmdCloseServer path w)))
  = Callback [JNull; address_object host (listen_port e)]
  ∧ _servers (snd (_cmdGetServer path e (snd (_cmdCloseServer path w))))
      !! getPathKey path
    = Some {| server := Some {| srv_id := next_server w;
                                srv_app := pipeline host path |};
              address := address_object host (listen_port e) |}
  ∧ next_server w ≠ srv_id srv
  ∧ listening (snd (_cmdGetServer path e (snd (_cmdCloseServer path w))))
      !! srv_id srv = None
  ∧ listening (snd (_cmdGetServer path e (snd (_cmdCloseServer path w))))
      !! next_server w = Some (listen_port e).
Proof.
  intros Hp Hw L S Ha Hg.
  destruct (reachable_registry_ok w Hw) as (Hl & _ & Hb).
  assert (srv_id srv < next_server w) as Hlt.
  { destruct (Hl _ _ L) as (srv' & _ & p & _ & S' & _ & _ & _ & Hli).
    rewrite S in S'. injection S' as <-. by apply Hb in Hli. }
  destruct (_cmdCloseServer_cases path w)
    as [(L' & _)|[(en' & srv' & L' & S' & ->)|(en' & L' & S' & _)]];
    [congruence| |congruence].
  rewrite L in L'. injection L' as <-. rewrite S in S'. injection S' as <-.
  cbn [snd].
  rewrite _cmdGetServer_miss by (cbn; apply lookup_delete_eq).
  unfold _createServer. cbn zeta.
  rewrite Ha, (connect_static_nonempty _ Hp), Hg. cbn.
  split; [done|]. split; [apply lookup_insert_eq|]. split; [lia|].
  split.
  - rewrite lookup_insert_ne by lia. apply lookup_delete_eq.
  - apply lookup_insert_eq.
Qed.

Lemma close_then_get_fresh_witness :
  fst (_cmdGetServer "/a/b" env_ok
         (snd (_cmdCloseServer "/a/b"
                 (snd (_cmdGetServer "/a/b" env_ok initial_world)))))
  = Callback [JNull; address_object "10.0.1.5" (listen_port env_ok)]
  ∧ _servers
      (snd (_cmdGetServer "/a/b" env_ok
              (snd (_cmdCloseServer "/a/b"
                      (snd (_cmdGetServer "/a/b" env_ok initial_world))))))
      !! getPathKey "/a/b"
    = Some {| server :=
                Some {| srv_id :=
                          next_server
                            (snd (_cmdGetServer "/a/b" env_ok initial_world));
                        srv_app := pipeline "10.0.1.5" "/a/b" |};
              address := address_object "10.0.1.5" (listen_port env_ok) |}
  ∧ next_server (snd (_cmdGetServer "/a/b" env_ok initial_world))
    ≠ srv_id {| srv_id := 0; srv_app := pipeline "10.0.1.5" "/a/b" |}
  ∧ listening
      (snd (_cmdGetServer "/a/b" env_ok
              (snd (_cmdCloseServer "/a/b"
                      (snd (_cmdGetServer "/a/b" env_ok initial_world))))))
      !! srv_id {| srv_id := 0; srv_app := pipeline "10.0.1.5" "/a/b" |}
    = None
  ∧ listening
      (snd (_cmdGetServer "/a/b" env_ok
              (snd (_cmdCloseServer "/a/b"
                      (snd (_cmdGetServer "/a/b" env_ok initial_world))))))
      !! next_server (snd (_cmdGetServer "/a/b" env_ok initial_world))
    = Some (listen_port env_ok).
Proof.
  apply (close_then_get_fresh "/a/b" env_ok
           (snd (_cmdGetServer "/a/b" env_ok initial_world))
           {| server := Some {| srv_id := 0;
                                srv_app := pipeline "10.0.1.5" "/a/b" |};
              address := address_object "10.0.1.5" 49152 |}
           {| srv_id := 0; srv_app := pipeline "10.0.1.5" "/a/b" |}
           "10.0.1.5" []).
  - discriminate.
  - apply reach_get, reach_init.
  - reflexivity.
  - reflexivity.
  - reflexivity.
  - reflexivity.
Defined.

(** X12: a command on one path leaves the entries under every other key
    as they were. *)
Theorem commands_frame (path : string) (e : env) (w : world) (k : string) :
  k ≠ getPathKey path →
  _servers (snd (_cmdGetServer path e w)) !! k = _servers w !! k
  ∧ _servers (snd (_cmdCloseServer path w)) !! k = _servers w !! k.
Proof.
  intros Hk. split.
  - destruct (_cmdGetServer_cases path e w)
      as [(en & _ & ->)|[(_ & _ & ->)|[(h & r & err & _ & _ & _ & _ & ->)
        |[(h & r & _ & _ & _ & _ & ->)|(h & r & _ & _ & _ & ->)]]]]; cbn; try done.
    by rewrite lookup_insert_ne.
  - destruct (_cmdCloseServer_cases path w)
      as [(_ & ->)|[(en & srv & _ & _ & ->)|(en & _ & _ & ->)]]; cbn;
      try done; by rewrite lookup_delete_ne.
Qed.

Lemma commands_frame_witness :
  _servers (snd (_cmdGetServer "/b" env_ok
                   (snd (_cmdGetServer "/a" env_ok initial_world))))
    !! getPathKey "/a"
  = _servers (snd (_cmdGetServer "/a" env_ok initial_world)) !! getPathKey "/a"
  ∧ _servers (snd (_cmdCloseServer "/b"
                     (snd (_cmdGetServer "/a" env_ok initial_world))))
      !! getPathKey "/a"
    = _servers (snd (_cmdGetServer "/a" env_ok initial_world))
        !! getPathKey "/a".
Proof.
  apply (commands_frame "/b" env_ok
           (snd (_cmdGetServer "/a" env_ok initial_world)) (getPathKey "/a")).
  vm_compute. discriminate.
Defined.

(** X13: when [getServer] reports an error, the error is one of the two
    strings of [_createServer], the address handed over is null, and the
    table is as it was before the call; for the first of them the whole
    world is. *)
Theorem getServer_error_leaves_table (path : string) (e : env) (w : world) :
  truthy (cb_error (fst (_cmdGetServer path e w))) = true →
  _servers (snd (_cmdGetServer path e w)) = _servers w
  ∧ cb_result (fst (_cmdGetServer path e w)) = JNull
  ∧ (cb_error (fst (_cmdGetServer path e w)) = JStr no_address_error
     ∧ snd (_cmdGetServer path e w) = w
     ∨ cb_error (fst (_cmdGetServer path e w)) = JStr warmup_error).
Proof.
  destruct (_cmdGetServer_cases path e w)
    as [(en & _ & ->)|[(_ & _ & ->)|[(h & r & err & _ & _ & _ & _ & ->)
        |[(h & r & _ & _ & _ & _ & ->)|(h & r & _ & _ & _ & ->)]]]]; cbn; try discriminate; intros _.
  - repeat split. by left.
  - repeat split. by right.
Qed.

Lemma getServer_error_leaves_table_witness :
  _servers (snd (_cmdGetServer "/a/b" env_refused initial_world))
  = _servers initial_world
  ∧ cb_result (fst (_cmdGetServer "/a/b" env_refused initial_world)) = JNull
  ∧ (cb_error (fst (_cmdGetServer "/a/b" env_refused initial_world))
     = JStr no_address_error
     ∧ snd (_cmdGetServer "/a/b" env_refused initial_world) = initial_world
     ∨ cb_error (fst (_cmdGetServer "/a/b" env_refused initial_world))
       = JStr warmup_error).
Proof.
  apply (getServer_error_leaves_table "/a/b" env_refused initial_world).
  reflexivity.
Defined.

(** X14: for a path [p] that does not end in a separator, a [getServer]
    on one spelling ([p] or [p] followed by a separator) that answered with
    an address makes a [getServer] on the other spelling answer with the
    same address and change nothing. *)
Theorem getServer_other_spelling (p : string) (e1 e2 : env) (w w1 : world)
    (a : jsval) :
  JsString.last_char p ≠ Some slash →
  (_cmdGetServer p e1 w = (Callback [JNull; a], w1) →
   _cmdGetServer (p +:+ "/") e2 w1 = (Callback [JNull; a], w1))
  ∧ (_cmdGetServer (p +:+ "/") e1 w = (Callback [JNull; a], w1) →
     _cmdGetServer p e2 w1 = (Callback [JNull; a], w1)).
Proof.
  intros Hp.
  assert (getPathKey (p +:+ "/") = getPathKey p) as K.
  { unfold getPathKey.
    by rewrite normalizeRootPath_trailing, normalizeRootPath_plain. }
  split; intros H; apply _cmdGetServer_success_entry in H;
    destruct H as (en & L & <-).
  - apply _cmdGetServer_hit. by rewrite K.
  - apply _cmdGetServer_hit. by rewrite <- K.
Qed.

Lemma getServer_other_spelling_witness :
  _cmdGetServer ("/a/b" +:+ "/") env_refused
    (snd (_cmdGetServer "/a/b" env_ok initial_world))
  = (Callback [JNull; address_object "10.0.1.5" 49152],
     snd (_cmdGetServer "/a/b" env_ok initial_world)).
Proof.
  apply (proj1 (getServer_other_spelling "/a/b" env_ok env_refused
                  initial_world
                  (snd (_cmdGetServer "/a/b" env_ok initial_world))
                  (address_object "10.0.1.5" 49152)
                  ltac:(vm_compute; discriminate))).
  reflexivity.
Defined.

(** X15: for a non-empty path with no entry under its key, an address to
    use and a warm-up GET that answers, [getServer] hands over the first external address and
    the port the system gave; it stores, under the key, a new server whose
    filter is bound to that address and whose files are rooted at the path
    as the caller spelt it; that server listens on the port, and the call
    did nothing but start it and probe it there. *)
Theorem getServer_success_registers (path : string) (e : env) (w : world)
    (host : string) (rest : list string) :
  path ≠ "" →
  _servers w !! getPathKey path = None →
  getExternalAddresses (networkInterfaces e) = host :: rest →
  get_error e = None →
  fst (_cmdGetServer path e w)
  = Callback [JNull; address_object host (listen_port e)]
  ∧ _servers (snd (_cmdGetServer path e w))
    = <[getPathKey path :=
          {| server :=
               Some {| srv_id := next_server w;
                       srv_app := [MwRejectOffSubnet host; MwStatic path;
                                   MwLimit "1mb"] |};
             address := address_object host (listen_port e) |}]>
        (_servers w)
  ∧ listening (snd (_cmdGetServer path e w))
    = <[next_server w := listen_port e]> (listening w)
  ∧ next_server (snd (_cmdGetServer path e w)) = S (next_server w)
  ∧ trace (snd (_cmdGetServer path e w))
    = trace w ++ [EvListen (next_server w) (listen_port e);
                  EvGetRoot host (listen_port e)].
Proof.
  intros Hp L Ha Hg. rewrite (_cmdGetServer_miss _ _ _ L).
  unfold _createServer. cbn zeta.
  rewrite Ha, (connect_static_nonempty _ Hp), Hg. cbn.
  repeat split. by rewrite <- app_assoc.
Qed.

Lemma getServer_success_registers_witness :
  fst (_cmdGetServer "/a/b/" env_ok initial_world)
  = Callback [JNull; address_object "10.0.1.5" (listen_port env_ok)]
  ∧ _servers (snd (_cmdGetServer "/a/b/" env_ok initial_world))
    = <[getPathKey "/a/b/" :=
          {| server :=
               Some {| srv_id := next_server initial_world;
                       srv_app := [MwRejectOffSubnet "10.0.1.5";
                                   MwStatic "/a/b/"; MwLimit "1mb"] |};
             address := address_object "10.0.1.5" (listen_port env_ok) |}]>
        (_servers initial_world)
  ∧ listening (snd (_cmdGetServer "/a/b/" env_ok initial_world))
    = <[next_server initial_world := listen_port env_ok]>
        (listening initial_world)
  ∧ next_server (snd (_cmdGetServer "/a/b/" env_ok initial_world))
    = S (next_server initial_world)
  ∧ trace (snd (_cmdGetServer "/a/b/" env_ok initial_world))
    = trace initial_world
      ++ [EvListen (next_server initial_world) (listen_port env_ok);
          EvGetRoot "10.0.1.5" (listen_port env_ok)].
Proof.
  apply (getServer_success_registers "/a/b/" env_ok initial_world
           "10.0.1.5" []); [discriminate|reflexivity..].
Defined.

(** X16: [getServer] never stops a server: in a world the commands can
    reach, whatever listens before the call listens on the same port after
    it, and the server counter does not go down. *)
Theorem getServer_keeps_listeners (path : string) (e : env) (w : world)
    (id : nat) (port : Z) :
  reachable w →
  listening w !! id = Some port →
  listening (snd (_cmdGetServer path e w)) !! id = Some port
  ∧ (next_server w ≤ next_server (snd (_cmdGetServer path e w)))%nat.
Proof.
  intros Hw Hli. destruct (reachable_registry_ok w Hw) as (_ & _ & Hb).
  pose proof (Hb _ _ Hli) as Hlt.
  destruct (_cmdGetServer_cases path e w)
    as [(en & _ & ->)|[(_ & _ & ->)|[(h & r & err & _ & _ & _ & _ & ->)
        |[(h & r & _ & _ & _ & _ & ->)|(h & r & _ & _ & _ & ->)]]]]; cbn [snd]; try done.
  - rewrite started_listening, started_next_server.
    rewrite lookup_insert_ne by lia. split; [done|lia].
  - cbn [listening next_server set_servers].
    rewrite started_listening, started_next_server.
    rewrite lookup_insert_ne by lia. split; [done|lia].
Qed.

Lemma getServer_keeps_listeners_witness :
  listening (snd (_cmdGetServer "/b" env_refused
                    (snd (_cmdGetServer "/a" env_ok initial_world))))
    !! 0 = Some 49152%Z
  ∧ (next_server (snd (_cmdGetServer "/a" env_ok initial_world))
     ≤ next_server (snd (_cmdGetServer "/b" env_refused
                           (snd (_cmdGetServer "/a" env_ok initial_world)))))%nat.
Proof.
  apply (getServer_keeps_listeners "/b" env_refused
           (snd (_cmdGetServer "/a" env_ok initial_world)) 0 49152%Z).
  - apply reach_get, reach_init.
  - reflexivity.
Defined.

(** X17: [closeServer] stops at most the server stored under the key of
    its path: a server that listens after the call listened on the same
    port before it, and a server that listened before and is not the one
    stored under the key still listens. *)
Theorem closeServer_stops_only_its_server (path : string) (w : world)
    (id : nat) (port : Z) :
  (listening (snd (_cmdCloseServer path w)) !! id = Some port →
   listening w !! id = Some port)
  ∧ (listening w !! id = Some port →
     (∀ en srv, _servers w !! getPathKey path = Some en →
                server en = Some srv → srv_id srv ≠ id) →
     listening (snd (_cmdCloseServer path w)) !! id = Some port).
Proof.
  destruct (_cmdCloseServer_cases path w)
    as [(_ & ->)|[(en & srv & L & S & ->)|(en & _ & _ & ->)]]; cbn;
    try (split; done).
  split.
  - rewrite lookup_delete. case_decide; [discriminate|done].
  - intros Hli Hne. rewrite lookup_delete_ne; [done|]. by eapply Hne.
Qed.

(** X18: for the empty path, with no entry under its key and an address
    to use, [getServer] is left by the exception of [connect["static"]]:
    the callback is never called, no server is created and the world is
    unchanged. *)
Theorem getServer_empty_path_throws (e : env) (w : world)
    (host : string) (rest : list string) :
  _servers w !! getPathKey "" = None →
  getExternalAddresses (networkInterfaces e) = host :: rest →
  _cmdGetServer "" e w = (Throws static_root_required, w).
Proof.
  intros L Ha. rewrite (_cmdGetServer_miss _ _ _ L).
  unfold _createServer. cbn zeta. rewrite Ha. reflexivity.
Qed.

Lemma getServer_empty_path_throws_witness :
  _cmdGetServer "" env_refused initial_world
  = (Throws static_root_required, initial_world).
Proof.
  apply (getServer_empty_path_throws env_refused initial_world "10.0.1.5" []);
    reflexivity.
Defined.
